(** * HitsCountPatch: the custom metric accumulator of examples/19-customize-patch.py

    The example defines one class, [HitsCountPatch], a "Patch" that counts
    Hit@n over one batch and can be added to another Patch.  This file embeds
    the class (constructor, [forward], [add]) together with the tensor
    operations its constructor calls, and states the properties of the
    accumulator over that embedding.

    Python objects are mutable and shared, so instances live in a store and
    methods are computations of a small state-and-exception monad. *)

From stdpp Require Import base numbers list strings pretty gmap.

Local Open Scope Z_scope.

(** ** Tensors

    A 1-D integer tensor (class labels, column ids) is a list of integers; a
    2-D tensor is the list of its rows.  Prediction scores are only ever
    compared with one another by the sort, so they are taken in [Z]. *)

Module Tensor.

(** Insertion of one (score, column) pair into a list sorted by descending
    score.  The pair goes before the first entry whose score is not
    larger, so equal scores keep their column order (torch promises no
    order among equal scores; the sample batches below have none). *)
Fixpoint insert_desc (x : Z * Z) (l : list (Z * Z)) : list (Z * Z) :=
  match l with
  | [] => [x]
  | y :: l' => if x.1 <? y.1 then y :: insert_desc x l' else x :: y :: l'
  end.

Definition sort_desc (l : list (Z * Z)) : list (Z * Z) :=
  foldr insert_desc [] l.

(** The column ids of one row in descending order of score: one row of the
    second component of [preds.sort(dim=1, descending=True)]. *)
Definition argsort_desc (row : list Z) : list Z :=
  (sort_desc (zip row (seqZ 0 (Z.of_nat (length row))))).*2.

(** [_, ids_sorted = preds.sort(dim=1, descending=True)] *)
Definition sort_ids (preds : list (list Z)) : list (list Z) :=
  argsort_desc <$> preds.

(** Python's [l[:n]]: the first [n] entries, or for a negative [n] all but
    the last [-n]; never out of range. *)
Definition slice_to {A} (n : Z) (l : list A) : list A :=
  if 0 <=? n then take (Z.to_nat n) l
  else take (length l - Z.to_nat (- n))%nat l.

(** [t[:, :n]] *)
Definition columns_to (n : Z) (t : list (list Z)) : list (list Z) :=
  slice_to n <$> t.

(** [numpy.ravel] of a 2-D array: the rows one after the other. *)
Definition ravel (t : list (list Z)) : list Z := concat t.

(** [numpy.in1d(ar1, ar2)]: both arguments are flattened, and entry [i] of
    the result tells whether [ar1[i]] occurs anywhere in [ar2].  This is
    the result numpy documents.  The source also passes
    [assume_unique=True] although labels and ids repeat; numpy then gives
    this result whenever it answers from its lookup table or its short loop
    (small id ranges, few ids), and on its sorting path it flags in addition
    every copy but the last of a repeated entry of [ar1].  That addition has
    no counterpart here. *)
Definition in1d (ar1 : list Z) (ar2 : list (list Z)) : list bool :=
  (λ x, bool_decide (x ∈ ravel ar2)) <$> ar1.

(** [hit.sum()] of a boolean array: the number of [True] entries. *)
Definition sum_bool (hit : list bool) : Z :=
  foldr (λ b acc, Z.b2z b + acc) 0 hit.

End Tensor.

Import Tensor.

(** ** Dictionaries and exceptions *)

Abbreviation dict := (gmap string Z).

(** The exceptions these methods can meet.  [ReferenceError] stands for a
    reference to nothing, which no Python program can build; it makes
    [deref] total. *)
Inductive exn : Type :=
  | KeyError (key : string)
  | AttributeError (cls attr : string)
  | ReferenceError (l : nat).

Inductive result (A : Type) : Type :=
  | Ok (a : A)
  | Raise (e : exn).
Arguments Ok {A} a.
Arguments Raise {A} e.

(** [f'@{v}'] *)
Definition key (v : Z) : string := "@" +:+ pretty v.

(** ** The constructor's computation *)

(** [{f'@{v}': 0 for v in at}] *)
Definition zero_counts (at_ : list Z) : dict :=
  foldl (λ d v, <[key v := 0]> d) ∅ at_.

(** The number added under ['@n'] by one turn of the constructor's loop:
    [ids_n = ids_sorted[:,:n]; hit = np.in1d(tgts_np, ids_n); hit.sum()]. *)
Definition hits_at (ids_sorted : list (list Z)) (tgts_np : list Z) (n : Z) : Z :=
  let ids_n := columns_to n ids_sorted in
  let hit := in1d tgts_np ids_n in
  sum_bool hit.

(** [d[k] += x]; reading a missing key raises [KeyError]. *)
Definition dict_iadd (d : dict) (k : string) (x : Z) : result dict :=
  match d !! k with
  | Some c => Ok (<[k := c + x]> d)
  | None => Raise (KeyError k)
  end.

(** [for n in at: ... self.hits_count[f'@{n}'] += hit.sum()] *)
Fixpoint count_loop (ids_sorted : list (list Z)) (tgts_np : list Z)
    (ns : list Z) (d : dict) : result dict :=
  match ns with
  | [] => Ok d
  | n :: ns' =>
      match dict_iadd d (key n) (hits_at ids_sorted tgts_np n) with
      | Ok d' => count_loop ids_sorted tgts_np ns' d'
      | Raise e => Raise e
      end
  end.

(** ** Objects and the store *)

(** An instance of [HitsCountPatch]: the attribute set by the base class
    ([name]) and the two set by the constructor. *)
Record HitsCountPatch : Type := mkHitsCountPatch {
  name : option string;
  at_ : list Z;
  hits_count : dict;
}.

Definition set_hits_count (d : dict) (p : HitsCountPatch) : HitsCountPatch :=
  {| name := name p; at_ := at_ p; hits_count := d |}.

(** What a reference can point to: a [HitsCountPatch], or an instance of any
    other class, given by the class name and its dictionary-valued attributes
    (the only kind of attribute [add] reads). *)
Inductive pyobj : Type :=
  | Hits (p : HitsCountPatch)
  | Other (cls : string) (attrs : gmap string dict).

(** Modelled from the spec: [ValuePatch] is a class of the deepepochs
    package, whose code is not part of the example.  The example builds one
    from the loss and the batch size, and the spec describes the "mean-like"
    kind by its "count-weighted average"; it is taken to carry no
    [hits_count] attribute. *)
Definition ValuePatch : pyobj := Other "ValuePatch" ∅.

(** References are positions in the store; objects are never freed. *)
Abbreviation loc := nat.
Abbreviation heap := (list pyobj).

(** Computations over the store that return a value or raise. *)
Definition M (A : Type) : Type := heap → result A * heap.

#[global] Instance M_ret : MRet M := λ A a h, (Ok a, h).

#[global] Instance M_bind : MBind M := λ A B f m h,
  match m h with
  | (Ok a, h') => f a h'
  | (Raise e, h') => (Raise e, h')
  end.

Definition lift {A} (r : result A) : M A := λ h, (r, h).

(** Following a reference. *)
Definition deref (l : loc) : M pyobj :=
  λ h, match h !! l with
       | Some o => (Ok o, h)
       | None => (Raise (ReferenceError l), h)
       end.

(** Overwriting the object a reference points to. *)
Definition store (l : loc) (o : pyobj) : M unit :=
  λ h, (Ok tt, <[l := o]> h).

(** A new object, at the end of the store. *)
Definition alloc (o : pyobj) : M loc :=
  λ h, (Ok (length h), h ++ [o]).

(** [o.hits_count] *)
Definition getattr_hits_count (o : pyobj) : result dict :=
  match o with
  | Hits p => Ok (hits_count p)
  | Other cls attrs =>
      match attrs !! "hits_count" with
      | Some d => Ok d
      | None => Raise (AttributeError cls "hits_count")
      end
  end.

(** [o.hits_count = d] *)
Definition setattr_hits_count (o : pyobj) (d : dict) : pyobj :=
  match o with
  | Hits p => Hits (set_hits_count d p)
  | Other cls attrs => Other cls (<["hits_count" := d]> attrs)
  end.

(** Modelled from the spec: [sum_dicts] is imported from the deepepochs
    package, whose code is not part of the example.  The spec gives the merge
    of two hit-count mappings as the "element-wise integer sum over matching
    cutoff labels across two such mappings"; the function takes the list of
    the mappings.  A label that only one mapping carries keeps its count:
    the spec leaves that case open, and the properties stated for peers with
    the same cutoffs do not reach it. *)
Definition sum_dicts (dicts : list dict) : dict :=
  foldr (union_with (λ x y, Some (x + y))) ∅ dicts.

(** ** The class *)

(** The body of [HitsCountPatch.__init__]: the attributes of the new
    instance, or the exception the body raises.  [super().__init__(name)]
    stores the name. *)
Definition __init__ (preds : list (list Z)) (targets : list Z)
    (at_ : list Z) (name : option string) : result HitsCountPatch :=
  let ids_sorted := sort_ids preds in
  let tgts_np := targets in
  match count_loop ids_sorted tgts_np at_ (zero_counts at_) with
  | Ok d => Ok {| name := name; at_ := at_; hits_count := d |}
  | Raise e => Raise e
  end.

(** The call [HitsCountPatch(preds, targets, at, name)]. *)
Definition new (preds : list (list Z)) (targets : list Z)
    (at_ : list Z) (name : option string) : M loc :=
  p ← lift (__init__ preds targets at_ name) ;
  alloc (Hits p).

(** [def forward(self): return self.hits_count] *)
Definition forward (self : loc) : M dict :=
  o ← deref self ;
  lift (getattr_hits_count o).

(** [def add(self, obj):
       self.hits_count = sum_dicts([self.hits_count, obj.hits_count])
       return self] *)
Definition add (self obj : loc) : M loc :=
  o1 ← deref self ;
  d1 ← lift (getattr_hits_count o1) ;
  o2 ← deref obj ;
  d2 ← lift (getattr_hits_count o2) ;
  _ ← store self (setattr_hits_count o1 (sum_dicts [d1; d2])) ;
  mret self.

(** The value a computation returns from a given store. *)
Definition value {A} (m : M A) (h : heap) : result A := (m h).1.

(** [k] calls of [forward] in a row, with the values they return. *)
Fixpoint forward_times (k : nat) (self : loc) : M (list dict) :=
  match k with
  | O => mret []
  | S k' => d ← forward self; ds ← forward_times k' self; mret (d :: ds)
  end.

(** A patch built with the cutoffs [ats]: it records them, and its counts
    are filed under their labels. *)
Definition keys_of (ats : list Z) : gset string := list_to_set (key <$> ats).

Definition built_with (ats : list Z) (p : HitsCountPatch) : Prop :=
  at_ p = ats ∧ dom (hits_count p) = keys_of ats.

(** The reading of "a kind mismatch on merge is an error": [add] raises
    whenever its operand is not a [HitsCountPatch]. *)
Definition add_checks_kind : Prop :=
  ∀ (h : heap) (a b : loc) pa cls attrs,
    h !! a = Some (Hits pa) → h !! b = Some (Other cls attrs) →
    ∃ e h', add a b h = (Raise e, h').

(** What the constructor's loop adds under the label [k] in all: one term
    for every entry of [ns] whose label is [k]. *)
Definition added (ids_sorted : list (list Z)) (tgts_np : list Z) (ns : list Z)
    (k : string) : Z :=
  foldr (λ n acc,
           (if decide (key n = k) then hits_at ids_sorted tgts_np n else 0) + acc)
    0 ns.

(** The invariant of a patch: the labels of its cutoffs and no others, counts
    that are not negative, and counts that grow with the cutoff. *)
Definition keys_inv (p : HitsCountPatch) : Prop :=
  dom (hits_count p) = keys_of (at_ p).

Definition nonneg_inv (p : HitsCountPatch) : Prop :=
  map_Forall (λ _ c, 0 ≤ c) (hits_count p).

Definition mono_inv (p : HitsCountPatch) : Prop :=
  ∀ m n cm cn, m ∈ at_ p → n ∈ at_ p → m ≤ n →
    hits_count p !! key m = Some cm → hits_count p !! key n = Some cn →
    cm ≤ cn.

Definition patch_inv (p : HitsCountPatch) : Prop :=
  keys_inv p ∧ nonneg_inv p ∧ mono_inv p.

(** The reading of "malformed input at construction is an error": the
    constructor raises whenever predictions and targets differ in their
    number of samples. *)
Definition init_checks_batch_sizes : Prop :=
  ∀ preds targets ats nm,
    length preds ≠ length targets →
    ∃ e, __init__ preds targets ats nm = Raise e.

(** The count the spec describes, written from its words ("count how many
    samples have their true label within the top-k predicted labels"): sample
    by sample, the label against the first [n] sorted ids of its own row. *)
Definition spec_hits_at (preds : list (list Z)) (targets : list Z) (n : Z) : Z :=
  sum_bool
    (zip_with (λ t row, bool_decide (t ∈ slice_to n row)) targets (sort_ids preds)).

(** The 1-indexed position of the label [t] in a row of sorted ids. *)
Definition rank_of (t : Z) (ids : list Z) : option nat :=
  (λ r, S r.1) <$> list_find (λ x, x = t) ids.

(** ** Sample batches *)

(** Four samples over three classes; the true labels are first, third, first
    and second in their rows' descending order. *)
Definition ranked_preds : list (list Z) :=
  [[3; 2; 1]; [3; 2; 1]; [1; 3; 2]; [3; 2; 1]].
Definition ranked_targets : list Z := [0; 2; 1; 1].

(** Two samples over two classes, both labelled 1; only the second ranks its
    label first. *)
Definition pair_preds : list (list Z) := [[2; 1]; [1; 2]].
Definition pair_targets : list Z := [1; 1].

(** Three patches with the default cutoffs, and a store that holds them. *)
Definition patch_a : HitsCountPatch :=
  {| name := None; at_ := [1; 2]; hits_count := {[ "@1" := 2; "@2" := 3 ]} |}.
Definition patch_b : HitsCountPatch :=
  {| name := None; at_ := [1; 2]; hits_count := {[ "@1" := 1; "@2" := 4 ]} |}.
Definition patch_c : HitsCountPatch :=
  {| name := Some "nhits"; at_ := [1; 2]; hits_count := {[ "@1" := 0; "@2" := 0 ]} |}.
Definition three_patches : heap := [Hits patch_a; Hits patch_b; Hits patch_c].

(** The same counts under other names and cutoffs, in another store. *)
Definition patch_a' : HitsCountPatch :=
  {| name := Some "hits"; at_ := [2; 1]; hits_count := hits_count patch_a |}.
Definition patch_b' : HitsCountPatch :=
  {| name := Some "more"; at_ := [2; 1]; hits_count := hits_count patch_b |}.
Definition two_patches : heap := [Hits patch_b'; Hits patch_a'].

(** An instance of some other class that happens to carry [hits_count]. *)
Definition other_patch : pyobj :=
  Other "RecallCountPatch" {[ "hits_count" := {[ "@1" := 5; "@2" := 7 ]} ]}.

(** ** The task *)

(** [MyTask.step].  The model and the loss function are attributes the
    trainer gives the task; they are parameters here.  The loss function may
    return [None].  The result maps metric names to references to patches. *)
Section task.
Context {X L : Type}.
Context (model : X → list (list Z)).
Context (loss : list (list Z) → list Z → option L).

(** [def step(self, batch_x, batch_y, **step_args):
       model_out = self.model( *batch_x )
       loss = self.loss(model_out, batch_y)
       results = {}
       if loss is not None:
           results = {'loss': ValuePatch(loss.detach(), batch_size=len(model_out))}
       results['nhits'] = HitsCountPatch(model_out, batch_y)
       return results] *)
Definition step (batch_x : X) (batch_y : list Z) : M (gmap string loc) :=
  let model_out := model batch_x in
  let loss_ := loss model_out batch_y in
  results ← match loss_ with
            | Some _ => v ← alloc ValuePatch; mret ({[ "loss" := v ]} : gmap string loc)
            | None => mret (∅ : gmap string loc)
            end;
  nhits ← new model_out batch_y [1; 2] None;
  mret (<["nhits" := nhits]> results).

End task.

(** Closing the invariant on a sample patch with cutoffs 1 and 2. *)
Ltac sample_mono :=
  let Hm := fresh "Hm" in
  let Hn := fresh "Hn" in
  let Hcm := fresh "Hcm" in
  let Hcn := fresh "Hcn" in
  intros ? ? ? ? Hm Hn ? Hcm Hcn;
  apply list_elem_of_In in Hm; apply list_elem_of_In in Hn;
  simpl in Hm, Hn;
  destruct Hm as [<-|[<-|[]]]; destruct Hn as [<-|[<-|[]]];
  vm_compute in Hcm; vm_compute in Hcn; simplify_eq; lia.

Ltac sample_nonneg :=
  apply (bool_decide_unpack _); vm_compute; reflexivity.

(** * Properties *)

(** ** Running the methods *)

Section run.
Context (h : heap).

Lemma forward_run self o :
  h !! self = Some o → forward self h = (getattr_hits_count o, h).
Proof.
  intros Hs. unfold forward, mbind, M_bind, deref, lift. by rewrite Hs.
Qed.

Lemma add_run self obj o1 o2 d1 d2 :
  h !! self = Some o1 → h !! obj = Some o2 →
  getattr_hits_count o1 = Ok d1 → getattr_hits_count o2 = Ok d2 →
  add self obj h
  = (Ok self, <[self := setattr_hits_count o1 (sum_dicts [d1; d2])]> h).
Proof.
  intros Hs Ho H1 H2.
  unfold add, mbind, M_bind, deref, lift, store, mret, M_ret.
  by rewrite Hs, H1, Ho, H2.
Qed.

Lemma add_run_no_attr self obj o1 o2 d1 e :
  h !! self = Some o1 → h !! obj = Some o2 →
  getattr_hits_count o1 = Ok d1 → getattr_hits_count o2 = Raise e →
  add self obj h = (Raise e, h).
Proof.
  intros Hs Ho H1 H2.
  unfold add, mbind, M_bind, deref, lift.
  by rewrite Hs, H1, Ho, H2.
Qed.

Lemma lookup_updated (l : loc) o o' : h !! l = Some o → <[l := o']> h !! l = Some o'.
Proof.
  intros Hl. apply list_lookup_insert_eq. by eapply lookup_lt_Some.
Qed.

End run.

Lemma getattr_setattr o d : getattr_hits_count (setattr_hits_count o d) = Ok d.
Proof. destruct o; simpl; [done | by rewrite lookup_insert_eq]. Qed.

(** ** The merge rule *)

Lemma sum_dicts_pair (d1 d2 : dict) :
  sum_dicts [d1; d2] = union_with (λ x y, Some (x + y)) d1 d2.
Proof. unfold sum_dicts. simpl. by rewrite (right_id ∅ _). Qed.

Lemma sum_dicts_lookup (d1 d2 : dict) k :
  sum_dicts [d1; d2] !! k
  = match d1 !! k, d2 !! k with
    | Some x, Some y => Some (x + y)
    | Some x, None => Some x
    | None, o => o
    end.
Proof.
  rewrite sum_dicts_pair, lookup_union_with.
  by destruct (d1 !! k), (d2 !! k).
Qed.

Lemma sum_dicts_comm (d1 d2 : dict) : sum_dicts [d1; d2] = sum_dicts [d2; d1].
Proof.
  apply map_eq; intros k. rewrite !sum_dicts_lookup.
  destruct (d1 !! k), (d2 !! k); f_equal; lia.
Qed.

Lemma sum_dicts_assoc (d1 d2 d3 : dict) :
  sum_dicts [sum_dicts [d1; d2]; d3] = sum_dicts [d1; sum_dicts [d2; d3]].
Proof.
  apply map_eq; intros k. rewrite !sum_dicts_lookup.
  destruct (d1 !! k), (d2 !! k), (d3 !! k); f_equal; lia.
Qed.

Lemma sum_dicts_dom (d1 d2 : dict) :
  dom (sum_dicts [d1; d2]) = dom d1 ∪ dom d2.
Proof.
  apply set_eq; intros k.
  rewrite elem_of_union, !elem_of_dom, sum_dicts_lookup.
  destruct (d1 !! k), (d2 !! k); split; intros Hk; eauto;
    solve [ by destruct Hk as [[? ?] | [? ?]] | by destruct Hk ].
Qed.

(** Adding a mapping of zeros over the same labels changes nothing. *)
Lemma sum_dicts_zero_r (d z : dict) :
  dom z = dom d → map_Forall (λ _ c, c = 0) z → sum_dicts [d; z] = d.
Proof.
  intros Hdom Hz. apply map_eq; intros k. rewrite sum_dicts_lookup.
  destruct (d !! k) as [x|] eqn:Hd, (z !! k) as [y|] eqn:Hzk; try done.
  - rewrite (Hz k y Hzk). f_equal; lia.
  - assert (k ∈ dom d) as Hin by (rewrite <- Hdom; apply elem_of_dom; eauto).
    apply elem_of_dom in Hin as [? ?]; congruence.
Qed.

(** ** Sequencing *)

Lemma bind_ok {A B} (m : M A) (f : A → M B) (h h' : heap) a :
  m h = (Ok a, h') → (m ≫= f) h = f a h'.
Proof. intros Hm. unfold mbind, M_bind. by rewrite Hm. Qed.

(** [add] followed by [forward] on what it returned. *)
Lemma add_then_forward (h : heap) self obj o1 o2 d1 d2 :
  h !! self = Some o1 → h !! obj = Some o2 →
  getattr_hits_count o1 = Ok d1 → getattr_hits_count o2 = Ok d2 →
  value (r ← add self obj; forward r) h = Ok (sum_dicts [d1; d2]).
Proof.
  intros Hs Ho H1 H2. unfold value.
  erewrite bind_ok by (by eapply add_run).
  erewrite forward_run by (by eapply lookup_updated).
  by rewrite getattr_setattr.
Qed.

(** ** forward *)

(** C7.  [forward] has no parameter besides its receiver, returns the
    receiver's mapping from cutoff label to count, and only reads: however
    many times it is called, every call returns that mapping and the store,
    hence every attribute ([name], [at], [hits_count]) of the receiver and of
    every other object, is left as it was. *)
Theorem forward_pure_read (h : heap) (self : loc) (p : HitsCountPatch) (k : nat) :
  h !! self = Some (Hits p) →
  forward_times k self h = (Ok (replicate k (hits_count p)), h).
Proof.
  intros Hs. induction k as [|k IH]; simpl; [done |].
  rewrite (bind_ok _ _ h h (hits_count p)) by (by rewrite (forward_run h self (Hits p))).
  by rewrite (bind_ok _ _ h h (replicate k (hits_count p))) by exact IH.
Qed.

(** ** add *)

(** C8.  The value of a merge is fixed by the two mappings [add] reads: two
    calls of [add], in any two stores and on any operands, whose receivers
    carry the same [hits_count] and whose arguments carry the same
    [hits_count], both succeed and yield the same value.  The patches keep no
    reference to the predictions and targets they were built from, and the
    operands of the two calls may differ in everything else. *)
Theorem add_reads_hits_count_only (h1 h2 : heap) (a1 b1 a2 b2 : loc)
    (pa1 pb1 pa2 pb2 : HitsCountPatch) :
  h1 !! a1 = Some (Hits pa1) → h1 !! b1 = Some (Hits pb1) →
  h2 !! a2 = Some (Hits pa2) → h2 !! b2 = Some (Hits pb2) →
  hits_count pa1 = hits_count pa2 → hits_count pb1 = hits_count pb2 →
  ∃ d, value (r ← add a1 b1; forward r) h1 = Ok d
     ∧ value (r ← add a2 b2; forward r) h2 = Ok d.
Proof.
  intros Ha1 Hb1 Ha2 Hb2 Ea Eb.
  exists (sum_dicts [hits_count pa1; hits_count pb1]). split.
  - by eapply add_then_forward.
  - rewrite Ea, Eb. by eapply add_then_forward.
Qed.

(** C9.  [add] works in place.  A call [add(A, B)] returns the reference [A]
    itself; afterwards [A] carries the sum of the two mappings under
    [hits_count] and is otherwise as before; any other object, [B] included
    when it is not [A], is untouched; and [A] no longer determines what it
    held before the call: unless the merged mapping is empty, the same call
    on a different earlier content of [A] leaves [A] in the very same
    state. *)
Theorem add_in_place (h : heap) (a b : loc) (pa : HitsCountPatch) (ob : pyobj)
    (db : dict) :
  h !! a = Some (Hits pa) → h !! b = Some ob → getattr_hits_count ob = Ok db →
  let merged := sum_dicts [hits_count pa; db] in
  ∃ h', add a b h = (Ok a, h')
    ∧ h' !! a = Some (Hits (set_hits_count merged pa))
    ∧ (∀ l, l ≠ a → h' !! l = h !! l)
    ∧ (a ≠ b → merged ≠ ∅ →
       ∃ (g g' : heap) qa ob',
         g !! a = Some (Hits qa) ∧ g !! b = Some ob'
         ∧ name qa = name pa ∧ at_ qa = at_ pa
         ∧ hits_count qa ≠ hits_count pa
         ∧ add a b g = (Ok a, g') ∧ g' !! a = h' !! a).
Proof.
  intros Ha Hb Hdb merged.
  exists (<[a := Hits (set_hits_count merged pa)]> h).
  split; [by eapply (add_run h a b (Hits pa) ob) |].
  split; [by eapply lookup_updated |].
  split; [intros l Hl; by apply list_lookup_insert_ne |].
  intros Hab Hne.
  (* another content for [A], with the same sum *)
  assert (∃ da' db', da' ≠ hits_count pa ∧ sum_dicts [da'; db'] = merged)
    as (da' & db' & Hda' & Hsum).
  { destruct (decide (merged = hits_count pa)) as [Heq|Hneq].
    - exists ∅, merged. split; [congruence |].
      by rewrite sum_dicts_pair, (left_id ∅ _).
    - exists merged, ∅. split; [done |].
      by rewrite sum_dicts_pair, (right_id ∅ _). }
  set (qa := set_hits_count da' pa).
  set (g := <[a := Hits qa]> (<[b := setattr_hits_count ob db']> h)).
  assert (g !! a = Some (Hits qa)) as Hga.
  { apply list_lookup_insert_eq. rewrite length_insert. by eapply lookup_lt_Some. }
  assert (g !! b = Some (setattr_hits_count ob db')) as Hgb.
  { unfold g. rewrite list_lookup_insert_ne by done. by eapply lookup_updated. }
  exists g, (<[a := Hits (set_hits_count (sum_dicts [da'; db']) qa)]> g),
    qa, (setattr_hits_count ob db').
  repeat split; try done.
  - eapply (add_run g a b (Hits qa)); eauto using getattr_setattr.
  - erewrite !lookup_updated by done. by rewrite Hsum.
Qed.

(** C3, as the code has it.  [add] does not look at the kind of its operand,
    only for its [hits_count] attribute.  An operand of another class that
    has no such attribute, as [ValuePatch], makes [add] fail with the
    attribute error of the failed lookup, the store unchanged; an operand of
    another class that has one is merged like a peer, and [add] returns its
    receiver with the summed mapping. *)
Theorem add_no_kind_check (h : heap) (a b : loc) (pa : HitsCountPatch)
    (cls : string) (attrs : gmap string dict) :
  h !! a = Some (Hits pa) → h !! b = Some (Other cls attrs) →
  match attrs !! "hits_count" with
  | None => add a b h = (Raise (AttributeError cls "hits_count"), h)
  | Some d =>
      add a b h
      = (Ok a, <[a := Hits (set_hits_count (sum_dicts [hits_count pa; d]) pa)]> h)
  end.
Proof.
  intros Ha Hb. destruct (attrs !! "hits_count") as [d|] eqn:Hattr.
  - eapply (add_run h a b (Hits pa)); eauto. simpl. by rewrite Hattr.
  - eapply (add_run_no_attr h a b (Hits pa)); eauto. simpl. by rewrite Hattr.
Qed.

Lemma value_bind_ok {A B} (m : M A) (f : A → M B) (h h' : heap) a :
  m h = (Ok a, h') → value (m ≫= f) h = value (f a) h'.
Proof. intros Hm. unfold value. by erewrite bind_ok. Qed.

(** C4.  On patches built with the same cutoffs, merging is associative and
    commutative on values.  Started from one store, [add(add(A,B),C)] and
    [add(A,add(B,C))] both succeed with the same [forward()] value, for a
    receiver [A] that is a different object from [B] and from [C] ([add]
    writes into its receiver); and [add(A,B)] and [add(B,A)] both succeed
    with the same [forward()] value. *)
Theorem add_assoc_comm (h : heap) (a b c : loc) (pa pb pc : HitsCountPatch)
    (ats : list Z) :
  h !! a = Some (Hits pa) → h !! b = Some (Hits pb) → h !! c = Some (Hits pc) →
  built_with ats pa → built_with ats pb → built_with ats pc →
  (a ≠ b → a ≠ c →
   ∃ d, value (ab ← add a b; r ← add ab c; forward r) h = Ok d
      ∧ value (bc ← add b c; r ← add a bc; forward r) h = Ok d)
  ∧ (∃ d, value (r ← add a b; forward r) h = Ok d
        ∧ value (r ← add b a; forward r) h = Ok d).
Proof.
  intros Ha Hb Hc _ _ _. split.
  - intros Nab Nac.
    exists (sum_dicts [hits_count pa; sum_dicts [hits_count pb; hits_count pc]]).
    split.
    + erewrite value_bind_ok by (by eapply (add_run h a b (Hits pa) (Hits pb))).
      rewrite <- sum_dicts_assoc.
      eapply add_then_forward.
      * by eapply lookup_updated.
      * by rewrite list_lookup_insert_ne.
      * done.
      * done.
    + erewrite value_bind_ok by (by eapply (add_run h b c (Hits pb) (Hits pc))).
      eapply add_then_forward.
      * by rewrite list_lookup_insert_ne.
      * by eapply lookup_updated.
      * done.
      * done.
  - exists (sum_dicts [hits_count pa; hits_count pb]). split.
    + by eapply add_then_forward.
    + rewrite sum_dicts_comm. by eapply add_then_forward.
Qed.

(** ** The constructor *)

#[global] Instance key_inj : Inj (=) (=) key.
Proof.
  intros m n Hk. unfold key in Hk. simpl in Hk.
  injection Hk as Hk. by apply (inj pretty).
Qed.

Lemma zero_counts_from (ats : list Z) (d : dict) k :
  foldl (λ d v, <[key v := 0]> d) d ats !! k
  = if decide (k ∈ key <$> ats) then Some 0 else d !! k.
Proof.
  revert d. induction ats as [|v ats IH]; intros d.
  - case_decide as Hin; [by apply elem_of_nil in Hin | done].
  - cbn [foldl]. rewrite IH, fmap_cons.
    destruct (decide (k ∈ key <$> ats)) as [Hin|Hnin].
    + by rewrite decide_True by (by right).
    + destruct (decide (k = key v)) as [->|Hne].
      * rewrite decide_True by left. apply lookup_insert_eq.
      * rewrite decide_False by (rewrite elem_of_cons; tauto).
        by apply lookup_insert_ne.
Qed.

Lemma zero_counts_lookup (ats : list Z) k :
  zero_counts ats !! k = if decide (k ∈ key <$> ats) then Some 0 else None.
Proof. unfold zero_counts. by rewrite zero_counts_from, lookup_empty. Qed.

Lemma count_loop_spec ids targets (ns : list Z) (d : dict) :
  (∀ n, n ∈ ns → is_Some (d !! key n)) →
  ∃ d', count_loop ids targets ns d = Ok d'
      ∧ ∀ k, d' !! k = (λ c, c + added ids targets ns k) <$> d !! k.
Proof.
  revert d. induction ns as [|n ns IH]; intros d Hd; simpl.
  - exists d. split; [done |]. intros k.
    destruct (d !! k); simpl; f_equal; lia.
  - destruct (Hd n) as [c Hc]; [left |].
    unfold dict_iadd. rewrite Hc.
    destruct (IH (<[key n := c + hits_at ids targets n]> d)) as (d' & Hrun & Hd').
    { intros m Hm. destruct (decide (key n = key m)) as [->|Hne].
      - rewrite lookup_insert_eq. eauto.
      - rewrite lookup_insert_ne by done. apply Hd. by right. }
    exists d'. split; [done |]. intros k. rewrite Hd'.
    destruct (decide (key n = k)) as [<-|Hne].
    + rewrite lookup_insert_eq, Hc. simpl. f_equal. lia.
    + rewrite lookup_insert_ne by done.
      destruct (d !! k); simpl; f_equal; lia.
Qed.

(** The constructor never raises, and files under each label what the loop
    added there. *)
Lemma init_spec preds targets (ats : list Z) nm :
  ∃ p, __init__ preds targets ats nm = Ok p
     ∧ name p = nm ∧ at_ p = ats
     ∧ ∀ k, hits_count p !! k
            = if decide (k ∈ key <$> ats)
              then Some (added (sort_ids preds) targets ats k)
              else None.
Proof.
  destruct (count_loop_spec (sort_ids preds) targets ats (zero_counts ats))
    as (d & Hrun & Hd).
  { intros n Hn. rewrite zero_counts_lookup.
    rewrite decide_True; [eauto | by apply list_elem_of_fmap_2]. }
  exists {| name := nm; at_ := ats; hits_count := d |}.
  unfold __init__. cbv zeta. rewrite Hrun. repeat split. simpl. intros k.
  rewrite Hd, zero_counts_lookup. by destruct (decide _).
Qed.

(** *** The count of one cutoff *)

Lemma sum_bool_cons (b : bool) (hit : list bool) :
  sum_bool (b :: hit) = Z.b2z b + sum_bool hit.
Proof. reflexivity. Qed.

Lemma sum_bool_nonneg (hit : list bool) : 0 ≤ sum_bool hit.
Proof.
  induction hit as [|b hit IH]; [done |].
  rewrite sum_bool_cons. destruct b; simpl; lia.
Qed.

Lemma hits_at_nonneg ids targets n : 0 ≤ hits_at ids targets n.
Proof. apply sum_bool_nonneg. Qed.

Lemma hits_at_no_targets ids n : hits_at ids [] n = 0.
Proof. reflexivity. Qed.

Lemma added_nonneg ids targets ns k : 0 ≤ added ids targets ns k.
Proof.
  induction ns as [|n ns IH]; simpl; [lia |].
  pose proof (hits_at_nonneg ids targets n). case_decide; lia.
Qed.

Lemma added_absent ids targets (ns : list Z) (n : Z) :
  n ∉ ns → added ids targets ns (key n) = 0.
Proof.
  induction ns as [|m ns IH]; simpl; [done |].
  rewrite not_elem_of_cons. intros [Hne Hnin].
  rewrite decide_False by (intros Hk; by apply (inj key) in Hk).
  rewrite IH by done. lia.
Qed.

(** Among distinct cutoffs each label is added to once. *)
Lemma added_NoDup ids targets (ns : list Z) (n : Z) :
  NoDup ns → n ∈ ns → added ids targets ns (key n) = hits_at ids targets n.
Proof.
  induction 1 as [|m ns Hm Hnd IH]; simpl.
  - intros Hn. by apply elem_of_nil in Hn.
  - rewrite elem_of_cons. destruct (decide (key m = key n)) as [Hk|Hk].
    + apply (inj key) in Hk as ->. intros _. rewrite added_absent by done. lia.
    + intros [->|Hn]; [done |]. rewrite IH by done. lia.
Qed.

Lemma added_no_targets ids (ns : list Z) k : added ids [] ns k = 0.
Proof.
  induction ns as [|n ns IH]; simpl; [done |].
  rewrite IH, hits_at_no_targets. case_decide; lia.
Qed.

(** *** What construction establishes *)

Lemma init_keys_nonneg preds targets (ats : list Z) nm p :
  __init__ preds targets ats nm = Ok p →
  at_ p = ats ∧ name p = nm ∧ keys_inv p ∧ nonneg_inv p.
Proof.
  intros Hp. destruct (init_spec preds targets ats nm) as (p' & Hp' & Hn & Ha & Hl).
  rewrite Hp in Hp'. injection Hp' as <-.
  repeat split; try done.
  - unfold keys_inv, keys_of. rewrite Ha. apply set_eq; intros k.
    rewrite elem_of_dom, Hl, elem_of_list_to_set.
    case_decide; split; intros Hk; try done; by destruct Hk.
  - intros k c Hk. rewrite Hl in Hk. case_decide; [|done].
    injection Hk as <-. apply added_nonneg.
Qed.

Lemma init_counts preds targets (ats : list Z) nm p (n : Z) :
  __init__ preds targets ats nm = Ok p → NoDup ats → n ∈ ats →
  hits_count p !! key n = Some (hits_at (sort_ids preds) targets n).
Proof.
  intros Hp Hnd Hn.
  destruct (init_spec preds targets ats nm) as (p' & Hp' & _ & _ & Hl).
  rewrite Hp in Hp'. injection Hp' as <-.
  rewrite Hl, decide_True by (by apply list_elem_of_fmap_2).
  by rewrite added_NoDup.
Qed.

(** An empty batch counts nothing. *)
Lemma init_no_items (ats : list Z) nm :
  ∃ z, __init__ [] [] ats nm = Ok z
     ∧ built_with ats z ∧ map_Forall (λ _ c, c = 0) (hits_count z).
Proof.
  destruct (init_spec [] [] ats nm) as (z & Hz & _ & Ha & Hl).
  destruct (init_keys_nonneg _ _ _ _ _ Hz) as (_ & _ & Hk & _).
  exists z. split; [done |]. split.
  - split; [done |]. unfold keys_inv in Hk. by rewrite Ha in Hk.
  - intros k c Hc. rewrite Hl in Hc. case_decide; [|done].
    injection Hc as <-. apply added_no_targets.
Qed.

Lemma new_run preds targets (ats : list Z) nm p (h : heap) :
  __init__ preds targets ats nm = Ok p →
  new preds targets ats nm h = (Ok (length h), h ++ [Hits p]).
Proof.
  intros Hp. unfold new, mbind, M_bind, lift, alloc. by rewrite Hp.
Qed.

Lemma lookup_after_alloc (h : heap) (o o' : pyobj) (l : loc) :
  h !! l = Some o → (h ++ [o']) !! l = Some o.
Proof.
  intros Hl. rewrite lookup_app_l; [done | by eapply lookup_lt_Some].
Qed.

Lemma lookup_allocated (h : heap) (o : pyobj) : (h ++ [o]) !! length h = Some o.
Proof. by rewrite list_lookup_middle. Qed.

(** C6, as the code has it.  The constructor does not compare the number of
    prediction rows with the number of targets, and raises nothing when they
    differ: construction completes, with the given name and cutoffs. *)
Theorem init_accepts_mismatched_batches preds targets (ats : list Z) nm :
  length preds ≠ length targets →
  ∃ p, __init__ preds targets ats nm = Ok p ∧ name p = nm ∧ at_ p = ats.
Proof.
  intros _. destruct (init_spec preds targets ats nm) as (p & Hp & Hn & Ha & _).
  by exists p.
Qed.

(** *** What add preserves *)

Lemma hits_count_set d p : hits_count (set_hits_count d p) = d.
Proof. reflexivity. Qed.

Lemma at_set d p : at_ (set_hits_count d p) = at_ p.
Proof. reflexivity. Qed.

Lemma sum_preserves_keys_nonneg (pa pb : HitsCountPatch) :
  at_ pa = at_ pb →
  keys_inv pa → nonneg_inv pa → keys_inv pb → nonneg_inv pb →
  keys_inv (set_hits_count (sum_dicts [hits_count pa; hits_count pb]) pa)
  ∧ nonneg_inv (set_hits_count (sum_dicts [hits_count pa; hits_count pb]) pa).
Proof.
  intros Hat Ka Na Kb Nb.
  unfold keys_inv in Ka, Kb. rewrite <- Hat in Kb. split.
  - unfold keys_inv. rewrite hits_count_set, at_set, sum_dicts_dom, Ka, Kb.
    apply union_idemp_L.
  - unfold nonneg_inv. rewrite hits_count_set. intros k c.
    rewrite sum_dicts_lookup.
    destruct (hits_count pa !! k) as [x|] eqn:Hx,
             (hits_count pb !! k) as [y|] eqn:Hy; intros Hc; try done.
    + injection Hc as <-. specialize (Na k x Hx). specialize (Nb k y Hy).
      simpl in *. lia.
    + injection Hc as <-. by apply (Na k).
    + injection Hc as <-. by apply (Nb k).
Qed.

Lemma sum_preserves_mono (pa pb : HitsCountPatch) :
  at_ pa = at_ pb → keys_inv pa → keys_inv pb →
  mono_inv pa → mono_inv pb →
  mono_inv (set_hits_count (sum_dicts [hits_count pa; hits_count pb]) pa).
Proof.
  intros Hat Ka Kb Ma Mb.
  unfold keys_inv in Ka, Kb. rewrite <- Hat in Kb.
  intros m n cm cn. rewrite at_set, hits_count_set. intros Hm Hn Hmn.
  rewrite !sum_dicts_lookup.
  assert (∀ v, v ∈ at_ pa →
            is_Some (hits_count pa !! key v) ∧ is_Some (hits_count pb !! key v))
    as Hboth.
  { intros v Hv. rewrite <- !elem_of_dom, Ka, Kb. unfold keys_of.
    rewrite elem_of_list_to_set. split; by apply list_elem_of_fmap_2. }
  destruct (Hboth m Hm) as [[am Ham] [bm Hbm]].
  destruct (Hboth n Hn) as [[an Han] [bn Hbn]].
  rewrite Ham, Hbm, Han, Hbn. intros [= <-] [= <-].
  specialize (Ma m n am an Hm Hn Hmn Ham Han).
  rewrite Hat in Hm, Hn.
  specialize (Mb m n bm bn Hm Hn Hmn Hbm Hbn). lia.
Qed.

(** C10, as the code has it.  Construction always yields a patch whose labels
    are exactly those of its cutoffs and whose counts are not negative.
    [add] with a peer of the same cutoffs keeps the receiver's cutoffs,
    preserves both properties, and leaves counts that grow with the cutoff
    whenever the counts of both operands do. *)
Theorem patch_invariant preds targets (ats : list Z) nm
    (h : heap) (a b : loc) (pa pb : HitsCountPatch) :
  (∃ p, __init__ preds targets ats nm = Ok p
      ∧ at_ p = ats ∧ keys_inv p ∧ nonneg_inv p)
  ∧ (h !! a = Some (Hits pa) → h !! b = Some (Hits pb) →
     at_ pa = at_ pb →
     keys_inv pa → nonneg_inv pa → keys_inv pb → nonneg_inv pb →
     ∃ h' pa', add a b h = (Ok a, h') ∧ h' !! a = Some (Hits pa')
             ∧ at_ pa' = at_ pa ∧ keys_inv pa' ∧ nonneg_inv pa'
             ∧ (mono_inv pa → mono_inv pb → mono_inv pa')).
Proof.
  split.
  - destruct (init_spec preds targets ats nm) as (p & Hp & _).
    destruct (init_keys_nonneg _ _ _ _ _ Hp) as (Ha & _ & Hk & Hn).
    by exists p.
  - intros Ha Hb Hat Ka Na Kb Nb.
    destruct (sum_preserves_keys_nonneg pa pb Hat Ka Na Kb Nb) as [Kab Nab].
    eexists _, _. split; [by eapply (add_run h a b (Hits pa) (Hits pb)) |].
    split; [by eapply lookup_updated |].
    split; [done |]. split; [done |]. split; [done |].
    intros Ma Mb. by apply sum_preserves_mono.
Qed.

(** C5.  Merging with a peer that has seen no items changes nothing: for a
    patch [A] built with cutoffs [ats], [add(A, Z)] has [A]'s value whenever
    [Z] is a patch with the same cutoffs and every count zero, and the patch
    constructed from an empty batch with [ats] is such a [Z]. *)
Theorem add_zero_items (h : heap) (a : loc) (pa : HitsCountPatch)
    (ats : list Z) nm :
  h !! a = Some (Hits pa) → built_with ats pa →
  (∀ (z : loc) pz, h !! z = Some (Hits pz) → built_with ats pz →
     map_Forall (λ _ c, c = 0) (hits_count pz) →
     value (r ← add a z; forward r) h = Ok (hits_count pa))
  ∧ value (z ← new [] [] ats nm; r ← add a z; forward r) h = Ok (hits_count pa).
Proof.
  intros Ha [_ Hka].
  assert (∀ (g : heap) (z : loc) pz, g !! a = Some (Hits pa) →
            g !! z = Some (Hits pz) → built_with ats pz →
            map_Forall (λ _ c, c = 0) (hits_count pz) →
            value (r ← add a z; forward r) g = Ok (hits_count pa)) as Hgen.
  { intros g z pz Hga Hgz [_ Hkz] Hzero.
    erewrite add_then_forward by (done || by simpl).
    f_equal. apply sum_dicts_zero_r; [congruence | done]. }
  split; [intros z pz; by apply Hgen |].
  destruct (init_no_items ats nm) as (pz & Hz & Hbz & Hzero).
  erewrite value_bind_ok by (by apply new_run).
  eapply Hgen; eauto using lookup_after_alloc, lookup_allocated.
Qed.

(** ** The counts on sample batches *)

(** C1.  On the batch of four samples whose labels rank first, third, first
    and second, with cutoffs 1 and 2, the constructed patch holds
    [{'@1': 3, '@2': 4}], while the samples whose label is among their own
    first [n] ids number 2 and 3: every label is looked up among the first
    [n] ids of all rows together. *)
Theorem hits_count_ranked_batch :
  zip_with rank_of ranked_targets (sort_ids ranked_preds)
    = [Some 1%nat; Some 3%nat; Some 1%nat; Some 2%nat]
  ∧ value (a ← new ranked_preds ranked_targets [1; 2] None; forward a) []
    = Ok {[ "@1" := 3; "@2" := 4 ]}
  ∧ spec_hits_at ranked_preds ranked_targets 1 = 2
  ∧ spec_hits_at ranked_preds ranked_targets 2 = 3.
Proof. repeat split; vm_compute; reflexivity. Qed.

(** C2.  On the batch of two samples split after the first, the patch over
    the whole batch holds [{'@1': 2, '@2': 2}] and the merge of the patches
    over the two halves holds [{'@1': 1, '@2': 2}]; one sample has its label
    first in its own row. *)
Theorem split_merge_differs :
  value (a ← new pair_preds pair_targets [1; 2] None; forward a) []
    = Ok {[ "@1" := 2; "@2" := 2 ]}
  ∧ value (a ← new (take 1 pair_preds) (take 1 pair_targets) [1; 2] None;
           b ← new (drop 1 pair_preds) (drop 1 pair_targets) [1; 2] None;
           r ← add a b; forward r) []
    = Ok {[ "@1" := 1; "@2" := 2 ]}
  ∧ spec_hits_at pair_preds pair_targets 1 = 1.
Proof. repeat split; vm_compute; reflexivity. Qed.

(** ** Inputs on which the claimed errors do not occur *)

(** C3 does not hold as a check of kinds: an operand of another class with
    a [hits_count] attribute is merged without any error. *)
Lemma add_merges_other_kind :
  add 0 1 [Hits patch_a; other_patch]
    = (Ok 0%nat,
       [Hits (set_hits_count {[ "@1" := 7; "@2" := 10 ]} patch_a); other_patch])
  ∧ ¬ add_checks_kind.
Proof.
  assert (add 0 1 [Hits patch_a; other_patch]
    = (Ok 0%nat,
       [Hits (set_hits_count {[ "@1" := 7; "@2" := 10 ]} patch_a); other_patch]))
    as Hrun by (vm_compute; reflexivity).
  split; [done |]. intros Hchk.
  destruct (Hchk [Hits patch_a; other_patch] 0%nat 1%nat patch_a
              "RecallCountPatch" {[ "hits_count" := {[ "@1" := 5; "@2" := 7 ]} ]}
              eq_refl eq_refl) as (e & h' & He).
  rewrite Hrun in He. discriminate.
Qed.

(** C6 does not hold as a check of sizes: two rows of predictions and a
    single target construct a patch. *)
Lemma init_mismatched_batch_completes :
  length pair_preds ≠ length [1]
  ∧ __init__ pair_preds [1] [1; 2] None
    = Ok {| name := None; at_ := [1; 2]; hits_count := {[ "@1" := 1; "@2" := 1 ]} |}
  ∧ ¬ init_checks_batch_sizes.
Proof.
  assert (__init__ pair_preds [1] [1; 2] None
    = Ok {| name := None; at_ := [1; 2]; hits_count := {[ "@1" := 1; "@2" := 1 ]} |})
    as Hrun by (vm_compute; reflexivity).
  split; [simpl; lia |]. split; [done |]. intros Hchk.
  destruct (Hchk pair_preds [1] [1; 2] None) as [e He]; [simpl; lia |].
  rewrite Hrun in He. discriminate.
Qed.

(** C10 does not hold for every tuple of cutoffs: a cutoff listed twice is
    counted twice, and with cutoffs (1, 1, 2) and one sample that ranks its
    label first, ['@1'] holds 2 and ['@2'] holds 1. *)
Lemma init_repeated_cutoff_not_monotone :
  ∃ p, __init__ [[2; 1]] [0] [1; 1; 2] None = Ok p
     ∧ hits_count p !! "@1" = Some 2 ∧ hits_count p !! "@2" = Some 1
     ∧ ¬ patch_inv p.
Proof.
  eexists. split; [vm_compute; reflexivity |].
  split; [vm_compute; reflexivity |]. split; [vm_compute; reflexivity |].
  intros (_ & _ & Hmono).
  specialize (Hmono 1 2 2 1). simpl in Hmono.
  assert (2 ≤ 1) as Habs; [|lia].
  apply Hmono.
  - left.
  - do 2 right. left.
  - lia.
  - vm_compute; reflexivity.
  - vm_compute; reflexivity.
Qed.

(** ** The theorems at sample inputs *)

Lemma patch_a_inv : patch_inv patch_a.
Proof.
  split; [vm_compute; reflexivity |]. split; [sample_nonneg | sample_mono].
Qed.

Lemma patch_b_inv : patch_inv patch_b.
Proof.
  split; [vm_compute; reflexivity |]. split; [sample_nonneg | sample_mono].
Qed.

Lemma patch_a_built : built_with [1; 2] patch_a.
Proof. split; [reflexivity | vm_compute; reflexivity]. Qed.

Lemma patch_b_built : built_with [1; 2] patch_b.
Proof. split; [reflexivity | vm_compute; reflexivity]. Qed.

Lemma patch_c_built : built_with [1; 2] patch_c.
Proof. split; [reflexivity | vm_compute; reflexivity]. Qed.

(** Three reads of the first sample patch. *)
Lemma forward_pure_read_witness :
  three_patches !! 0%nat = Some (Hits patch_a)
  ∧ forward_times 3 0 three_patches
    = (Ok (replicate 3 (hits_count patch_a)), three_patches).
Proof.
  split; [reflexivity |].
  apply (forward_pure_read three_patches 0 patch_a 3). reflexivity.
Defined.

(** The same two mappings merged in two stores, under other names, cutoffs
    and positions. *)
Lemma add_reads_hits_count_only_witness :
  (three_patches !! 0%nat = Some (Hits patch_a)
   ∧ three_patches !! 1%nat = Some (Hits patch_b)
   ∧ two_patches !! 1%nat = Some (Hits patch_a')
   ∧ two_patches !! 0%nat = Some (Hits patch_b')
   ∧ hits_count patch_a = hits_count patch_a'
   ∧ hits_count patch_b = hits_count patch_b')
  ∧ ∃ d, value (r ← add 0 1; forward r) three_patches = Ok d
       ∧ value (r ← add 1 0; forward r) two_patches = Ok d.
Proof.
  split; [repeat split |].
  apply (add_reads_hits_count_only three_patches two_patches 0 1 1 0
           patch_a patch_b patch_a' patch_b'); reflexivity.
Defined.

(** The first sample patch merged with the second. *)
Lemma add_in_place_witness :
  (three_patches !! 0%nat = Some (Hits patch_a)
   ∧ three_patches !! 1%nat = Some (Hits patch_b)
   ∧ getattr_hits_count (Hits patch_b) = Ok (hits_count patch_b))
  ∧ ∃ h', add 0 1 three_patches = (Ok 0%nat, h')
      ∧ h' !! 0%nat
        = Some (Hits (set_hits_count
                        (sum_dicts [hits_count patch_a; hits_count patch_b]) patch_a))
      ∧ h' !! 1%nat = Some (Hits patch_b).
Proof.
  split; [repeat split |].
  destruct (add_in_place three_patches 0 1 patch_a (Hits patch_b)
              (hits_count patch_b) eq_refl eq_refl eq_refl)
    as (h' & Hrun & Ha & Hother & _).
  exists h'. split; [exact Hrun |]. split; [exact Ha |].
  rewrite Hother by lia. reflexivity.
Defined.

(** A [ValuePatch] as operand: the attribute lookup fails. *)
Lemma add_no_kind_check_witness :
  ([Hits patch_a; ValuePatch] !! 0%nat = Some (Hits patch_a)
   ∧ [Hits patch_a; ValuePatch] !! 1%nat = Some (Other "ValuePatch" ∅))
  ∧ add 0 1 [Hits patch_a; ValuePatch]
    = (Raise (AttributeError "ValuePatch" "hits_count"), [Hits patch_a; ValuePatch]).
Proof.
  split; [repeat split |].
  exact (add_no_kind_check [Hits patch_a; ValuePatch] 0 1 patch_a "ValuePatch" ∅
           eq_refl eq_refl).
Defined.

(** The three sample patches merged in both groupings and both orders. *)
Lemma add_assoc_comm_witness :
  (∃ d, value (ab ← add 0 1; r ← add ab 2; forward r) three_patches = Ok d
      ∧ value (bc ← add 1 2; r ← add 0 bc; forward r) three_patches = Ok d)
  ∧ (∃ d, value (r ← add 0 1; forward r) three_patches = Ok d
        ∧ value (r ← add 1 0; forward r) three_patches = Ok d).
Proof.
  destruct (add_assoc_comm three_patches 0 1 2 patch_a patch_b patch_c [1; 2]
              eq_refl eq_refl eq_refl patch_a_built patch_b_built patch_c_built)
    as [Hassoc Hcomm].
  split; [|exact Hcomm].
  apply Hassoc; lia.
Defined.

(** The first sample patch merged with the all-zero one, and with a patch
    constructed from an empty batch. *)
Lemma add_zero_items_witness :
  value (r ← add 0 2; forward r) three_patches = Ok (hits_count patch_a)
  ∧ value (z ← new [] [] [1; 2] None; r ← add 0 z; forward r) three_patches
    = Ok (hits_count patch_a).
Proof.
  destruct (add_zero_items three_patches 0 patch_a [1; 2] None eq_refl patch_a_built)
    as [Hany Hnew].
  split; [|exact Hnew].
  apply (Hany 2%nat patch_c); [reflexivity | exact patch_c_built |].
  apply (bool_decide_unpack _). vm_compute. reflexivity.
Defined.

(** Two rows of predictions against one target. *)
Lemma init_accepts_mismatched_batches_witness :
  length pair_preds ≠ length [1]
  ∧ ∃ p, __init__ pair_preds [1] [1; 2] None = Ok p
       ∧ name p = None ∧ at_ p = [1; 2].
Proof.
  assert (length pair_preds ≠ length [1]) as Hlen by (simpl; lia).
  split; [exact Hlen |].
  exact (init_accepts_mismatched_batches pair_preds [1] [1; 2] None Hlen).
Defined.

(** The invariant after constructing from the two-sample batch, and after
    merging the first two sample patches. *)
Lemma patch_invariant_witness :
  (∃ p, __init__ pair_preds pair_targets [1; 2] None = Ok p
      ∧ keys_inv p ∧ nonneg_inv p)
  ∧ (∃ h' pa', add 0 1 three_patches = (Ok 0%nat, h')
             ∧ h' !! 0%nat = Some (Hits pa') ∧ patch_inv pa').
Proof.
  destruct (patch_invariant pair_preds pair_targets [1; 2] None
              three_patches 0 1 patch_a patch_b)
    as [(p & Hp & Hat & Hk & Hn) Hadd].
  split.
  - exists p. split; [exact Hp |]. split; [exact Hk | exact Hn].
  - destruct patch_a_inv as (Ka & Na & Ma). destruct patch_b_inv as (Kb & Nb & Mb).
    destruct (Hadd eq_refl eq_refl eq_refl Ka Na Kb Nb)
      as (h' & pa' & Hrun & Ha & _ & Hk' & Hn' & Hm').
    exists h', pa'. split; [exact Hrun |]. split; [exact Ha |].
    split; [exact Hk' |]. split; [exact Hn' |]. exact (Hm' Ma Mb).
Defined.

(** * Further properties of the constructor *)

(** ** Counting *)

Lemma sum_bool_le_length (hit : list bool) : sum_bool hit ≤ Z.of_nat (length hit).
Proof.
  induction hit as [|b hit IH]; [done |].
  rewrite sum_bool_cons. cbn [length]. destruct b; simpl; lia.
Qed.

Lemma sum_bool_fmap_ext {A} (f g : A → bool) (l : list A) :
  (∀ x, x ∈ l → f x = g x) → sum_bool (f <$> l) = sum_bool (g <$> l).
Proof.
  intros Hfg. f_equal. apply list_fmap_ext. intros i x Hx.
  apply Hfg. by eapply list_elem_of_lookup_2.
Qed.

Lemma sum_bool_fmap_false {A} (f : A → bool) (l : list A) :
  (∀ x, x ∈ l → f x = false) → sum_bool (f <$> l) = 0.
Proof.
  intros Hf. induction l as [|x l IH]; [done |].
  rewrite fmap_cons, sum_bool_cons, Hf by left.
  rewrite IH; [done |]. intros y Hy. apply Hf. by right.
Qed.

Lemma sum_bool_fmap_filter {A} (P : A → Prop) `{∀ x, Decision (P x)} (l : list A) :
  sum_bool ((λ x, bool_decide (P x)) <$> l) = Z.of_nat (length (filter P l)).
Proof.
  induction l as [|x l IH]; [done |].
  rewrite fmap_cons, sum_bool_cons, filter_cons, IH.
  destruct (decide (P x)) as [Hx|Hx].
  - rewrite bool_decide_eq_true_2 by done. cbn [length Z.b2z]. lia.
  - rewrite bool_decide_eq_false_2 by done. simpl. lia.
Qed.

Lemma hits_at_le_targets ids targets n :
  hits_at ids targets n ≤ Z.of_nat (length targets).
Proof.
  unfold hits_at, in1d.
  etrans; [apply sum_bool_le_length |]. by rewrite length_fmap.
Qed.

Lemma hits_at_none ids targets n :
  (∀ t, t ∈ targets → t ∉ ravel (columns_to n ids)) → hits_at ids targets n = 0.
Proof.
  intros Hno. unfold hits_at, in1d. apply sum_bool_fmap_false.
  intros t Ht. apply bool_decide_eq_false_2. by apply Hno.
Qed.

Lemma elem_of_ravel_columns (n x : Z) (ids : list (list Z)) :
  x ∈ ravel (columns_to n ids) ↔ ∃ row, row ∈ ids ∧ x ∈ slice_to n row.
Proof.
  unfold ravel, columns_to. rewrite list_elem_of_In, in_concat. split.
  - intros (r & Hr & Hx).
    apply list_elem_of_In, list_elem_of_fmap in Hr as (row & -> & Hrow).
    exists row. split; [done | by apply list_elem_of_In].
  - intros (row & Hrow & Hx). exists (slice_to n row). split.
    + by apply list_elem_of_In, list_elem_of_fmap_2.
    + by apply list_elem_of_In.
Qed.

Lemma added_mult ids targets (ns : list Z) (n : Z) :
  added ids targets ns (key n)
  = Z.of_nat (length (filter (λ m, m = n) ns)) * hits_at ids targets n.
Proof.
  induction ns as [|m ns IH]; [simpl; lia |].
  cbn [added foldr]. fold (added ids targets ns (key n)). rewrite IH, filter_cons.
  destruct (decide (m = n)) as [->|Hne].
  - rewrite decide_True by done. cbn [length]. lia.
  - rewrite decide_False by (intros Hk; by apply (inj key) in Hk). lia.
Qed.

Lemma init_lookup_listed preds targets (ats : list Z) nm p (n : Z) :
  __init__ preds targets ats nm = Ok p → n ∈ ats →
  hits_count p !! key n
  = Some (Z.of_nat (length (filter (λ m, m = n) ats))
          * hits_at (sort_ids preds) targets n).
Proof.
  intros Hp Hn.
  destruct (init_spec preds targets ats nm) as (p' & Hp' & _ & _ & Hl).
  rewrite Hp in Hp'. injection Hp' as <-.
  rewrite Hl, decide_True by (by apply list_elem_of_fmap_2).
  by rewrite added_mult.
Qed.

(** X1.  A cutoff listed several times is counted as many times: on the
    same batch, the count filed under ['@n'] for a tuple of cutoffs that
    lists [n] is the count filed for the single cutoff [n], times the number
    of times [n] is listed. *)
Theorem init_listed_cutoff_scales preds targets (ats : list Z) nm nm' p q (n : Z) :
  __init__ preds targets ats nm = Ok p →
  __init__ preds targets [n] nm' = Ok q → n ∈ ats →
  ∃ c, hits_count q !! key n = Some c
     ∧ hits_count p !! key n
       = Some (Z.of_nat (length (filter (λ m, m = n) ats)) * c).
Proof.
  intros Hp Hq Hn. exists (hits_at (sort_ids preds) targets n). split.
  - rewrite (init_lookup_listed _ _ _ _ _ _ Hq) by left.
    rewrite filter_cons, decide_True by done. simpl. f_equal. lia.
  - by apply (init_lookup_listed preds targets ats nm).
Qed.

(** X2.  With distinct cutoffs no count is negative and no count exceeds the
    number of targets. *)
Theorem init_counts_bounded preds targets (ats : list Z) nm p :
  __init__ preds targets ats nm = Ok p → NoDup ats →
  map_Forall (λ _ c, 0 ≤ c ≤ Z.of_nat (length targets)) (hits_count p).
Proof.
  intros Hp Hnd k c Hk.
  destruct (init_spec preds targets ats nm) as (p' & Hp' & _ & _ & Hl).
  rewrite Hp in Hp'. injection Hp' as <-.
  rewrite Hl in Hk. case_decide as Hin; [|done]. injection Hk as <-.
  apply list_elem_of_fmap in Hin as (n & -> & Hn).
  rewrite added_NoDup by done.
  split; [apply hits_at_nonneg | apply hits_at_le_targets].
Qed.

(** X3.  A batch without prediction rows, a batch without targets and the
    cutoff 0 count nothing: the count under their label is 0. *)
Theorem init_counts_nothing preds targets (ats : list Z) nm p (n : Z) :
  __init__ preds targets ats nm = Ok p → n ∈ ats →
  preds = [] ∨ targets = [] ∨ n = 0 →
  hits_count p !! key n = Some 0.
Proof.
  intros Hp Hn Hcase.
  rewrite (init_lookup_listed _ _ _ _ _ _ Hp Hn).
  assert (hits_at (sort_ids preds) targets n = 0) as ->; [|f_equal; lia].
  destruct Hcase as [-> | [-> | ->]].
  - apply hits_at_none. intros t _. rewrite elem_of_ravel_columns.
    intros (row & Hrow & _). by apply elem_of_nil in Hrow.
  - apply hits_at_no_targets.
  - apply hits_at_none. intros t _. rewrite elem_of_ravel_columns.
    intros (row & _ & Ht). unfold slice_to in Ht. simpl in Ht.
    by apply elem_of_nil in Ht.
Qed.

(** ** The sorted ids *)

Lemma insert_desc_perm (x : Z * Z) (l : list (Z * Z)) : insert_desc x l ≡ₚ x :: l.
Proof.
  induction l as [|y l IH]; [done |].
  cbn [insert_desc]. destruct (x.1 <? y.1); [|done].
  rewrite IH. apply Permutation_swap.
Qed.

Lemma sort_desc_perm (l : list (Z * Z)) : sort_desc l ≡ₚ l.
Proof.
  induction l as [|x l IH]; [done |].
  cbn [sort_desc foldr]. fold (sort_desc l). by rewrite insert_desc_perm, IH.
Qed.

(** Every row of sorted ids lists each column of the row once. *)
Lemma argsort_desc_perm (row : list Z) :
  argsort_desc row ≡ₚ seqZ 0 (Z.of_nat (length row)).
Proof.
  unfold argsort_desc. rewrite sort_desc_perm, snd_zip; [done |].
  rewrite length_seqZ. lia.
Qed.

Lemma elem_of_argsort_desc (row : list Z) (x : Z) :
  x ∈ argsort_desc row ↔ 0 ≤ x < Z.of_nat (length row).
Proof. rewrite argsort_desc_perm, elem_of_seqZ. lia. Qed.

Lemma length_argsort_desc (row : list Z) : length (argsort_desc row) = length row.
Proof.
  rewrite (Permutation_length (argsort_desc_perm row)), length_seqZ. lia.
Qed.

(** X4.  A cutoff at or beyond the number of classes counts every target
    that is a class index: for a non-empty batch whose rows all have [C]
    scores and a cutoff [n ≥ C] listed once, the count under ['@n'] is the
    number of targets [t] with [0 ≤ t < C], whatever the scores. *)
Theorem init_count_all_classes preds targets (ats : list Z) nm p (n : Z) (C : nat) :
  __init__ preds targets ats nm = Ok p → NoDup ats → n ∈ ats →
  preds ≠ [] → Forall (λ row, length row = C) preds → Z.of_nat C ≤ n →
  hits_count p !! key n
  = Some (Z.of_nat (length (filter (λ t, 0 ≤ t < Z.of_nat C) targets))).
Proof.
  intros Hp Hnd Hn Hne Hrows HC.
  rewrite (init_counts _ _ _ _ _ _ Hp Hnd Hn). f_equal.
  rewrite <- sum_bool_fmap_filter. unfold hits_at, in1d.
  apply sum_bool_fmap_ext. intros t _. apply bool_decide_ext.
  rewrite elem_of_ravel_columns. unfold sort_ids.
  assert (∀ row, row ∈ preds → slice_to n (argsort_desc row) = argsort_desc row)
    as Hfull.
  { intros row Hrow. unfold slice_to.
    rewrite (proj2 (Z.leb_le _ _)) by lia. apply take_ge.
    rewrite length_argsort_desc.
    rewrite (proj1 (Forall_forall _ _) Hrows row Hrow). lia. }
  split.
  - intros (ids & Hids & Ht).
    apply list_elem_of_fmap in Hids as (row & -> & Hrow).
    rewrite Hfull in Ht by done. apply elem_of_argsort_desc in Ht.
    by rewrite (proj1 (Forall_forall _ _) Hrows row Hrow) in Ht.
  - intros Ht. destruct preds as [|row preds']; [done |].
    exists (argsort_desc row). split; [apply list_elem_of_fmap_2; left |].
    rewrite Hfull by left. apply elem_of_argsort_desc.
    by rewrite (proj1 (Forall_forall _ _) Hrows row) by left.
Qed.

(** ** Rows, labels and their pairing *)

Lemma sum_bool_perm (l l' : list bool) : l ≡ₚ l' → sum_bool l = sum_bool l'.
Proof.
  induction 1 as [|b l l' _ IH|b b' l|l l' l'' _ IH1 _ IH2]; [done | | |].
  - rewrite !sum_bool_cons. lia.
  - rewrite !sum_bool_cons. lia.
  - by rewrite IH1.
Qed.

Lemma hits_at_perm (ids ids' : list (list Z)) (targets targets' : list Z) n :
  ids ≡ₚ ids' → targets ≡ₚ targets' →
  hits_at ids targets n = hits_at ids' targets' n.
Proof.
  intros Hids Htg. unfold hits_at, in1d.
  rewrite (sum_bool_perm _ ((λ x, bool_decide (x ∈ ravel (columns_to n ids)))
                              <$> targets')) by (by apply fmap_Permutation).
  apply sum_bool_fmap_ext. intros t _. apply bool_decide_ext.
  rewrite !elem_of_ravel_columns. by setoid_rewrite Hids.
Qed.

Lemma count_loop_ext (ids ids' : list (list Z)) (targets targets' : list Z)
    (ns : list Z) (d : dict) :
  (∀ n, hits_at ids targets n = hits_at ids' targets' n) →
  count_loop ids targets ns d = count_loop ids' targets' ns d.
Proof.
  intros Heq. revert d. induction ns as [|n ns IH]; intros d; [done |].
  cbn [count_loop]. rewrite Heq.
  destruct (dict_iadd d (key n) (hits_at ids' targets' n)); [apply IH | done].
Qed.

(** X5.  The constructor does not use which target belongs to which row:
    reordering the rows of predictions, and independently reordering the
    targets, gives a patch with the same attributes. *)
Theorem init_ignores_pairing (preds preds' : list (list Z))
    (targets targets' : list Z) (ats : list Z) nm :
  preds ≡ₚ preds' → targets ≡ₚ targets' →
  __init__ preds targets ats nm = __init__ preds' targets' ats nm.
Proof.
  intros Hp Ht. unfold __init__. cbv zeta.
  rewrite (count_loop_ext (sort_ids preds) (sort_ids preds') targets targets');
    [done |].
  intros n. apply hits_at_perm; [|done]. unfold sort_ids. by rewrite Hp.
Qed.

Lemma own_row_le_all_rows (n : Z) (all rows : list (list Z)) (ts : list Z) :
  rows ⊆ all →
  sum_bool (zip_with (λ t row, bool_decide (t ∈ slice_to n row)) ts rows)
  ≤ sum_bool ((λ t, bool_decide (t ∈ ravel (columns_to n all))) <$> ts).
Proof.
  revert rows. induction ts as [|t ts IH]; intros rows Hsub; [done |].
  destruct rows as [|row rows].
  - cbn [zip_with]. apply sum_bool_nonneg.
  - cbn [zip_with]. rewrite fmap_cons, !sum_bool_cons.
    assert (rows ⊆ all) as Hsub' by (intros r Hr; apply Hsub; by right).
    specialize (IH rows Hsub').
    destruct (bool_decide (t ∈ slice_to n row)) eqn:Hown; simpl;
      [| destruct (bool_decide (t ∈ ravel (columns_to n all))); simpl; lia].
    apply bool_decide_eq_true in Hown.
    rewrite bool_decide_eq_true_2; [simpl; lia |].
    apply elem_of_ravel_columns. exists row. split; [apply Hsub; left | done].
Qed.

Lemma listed_at_least_once (ats : list Z) (n : Z) :
  n ∈ ats → (1 ≤ length (filter (λ m, m = n) ats))%nat.
Proof.
  intros Hn. assert (n ∈ filter (λ m, m = n) ats) as Hin
    by (by apply list_elem_of_filter).
  destruct (filter (λ m, m = n) ats); [by apply elem_of_nil in Hin | simpl; lia].
Qed.

(** X6.  The constructor never undercounts Hit@n: the count it files under
    ['@n'] is at least the number of samples whose label is among the first
    [n] sorted ids of their own row. *)
Theorem init_never_undercounts preds targets (ats : list Z) nm p (n : Z) :
  __init__ preds targets ats nm = Ok p → n ∈ ats →
  ∃ c, hits_count p !! key n = Some c ∧ spec_hits_at preds targets n ≤ c.
Proof.
  intros Hp Hn. eexists. split; [by eapply init_lookup_listed |].
  pose proof (listed_at_least_once ats n Hn) as Hone.
  pose proof (hits_at_nonneg (sort_ids preds) targets n) as Hpos.
  assert (spec_hits_at preds targets n ≤ hits_at (sort_ids preds) targets n) as Hle
    by (by apply own_row_le_all_rows).
  nia.
Qed.

(** X7.  On a batch of a single sample the count is exact: under a cutoff
    listed once it is 1 when the label is among the first [n] sorted ids of
    the sample's row and 0 otherwise. *)
Theorem init_single_sample (row : list Z) (t : Z) (ats : list Z) nm p (n : Z) :
  __init__ [row] [t] ats nm = Ok p → NoDup ats → n ∈ ats →
  hits_count p !! key n
  = Some (if bool_decide (t ∈ slice_to n (argsort_desc row)) then 1 else 0).
Proof.
  intros Hp Hnd Hn. rewrite (init_counts _ _ _ _ _ _ Hp Hnd Hn). f_equal.
  unfold hits_at, in1d, ravel, columns_to, sort_ids. simpl.
  rewrite app_nil_r. by destruct (bool_decide _).
Qed.

(** * Further properties of add *)

(** X9.  Merging a patch with itself doubles it: [add(A, A)] returns [A],
    leaves under every label twice the count [A] held, and touches no other
    object. *)
Theorem add_self_doubles (h : heap) (a : loc) (pa : HitsCountPatch) :
  h !! a = Some (Hits pa) →
  ∃ h' d, add a a h = (Ok a, h')
    ∧ h' !! a = Some (Hits (set_hits_count d pa))
    ∧ (∀ k, d !! k = (λ c, 2 * c) <$> hits_count pa !! k)
    ∧ (∀ l, l ≠ a → h' !! l = h !! l).
Proof.
  intros Ha.
  exists (<[a := Hits (set_hits_count (sum_dicts [hits_count pa; hits_count pa]) pa)]> h),
    (sum_dicts [hits_count pa; hits_count pa]).
  split; [by eapply (add_run h a a (Hits pa) (Hits pa)) |].
  split; [by eapply lookup_updated |].
  split.
  - intros k. rewrite sum_dicts_lookup.
    destruct (hits_count pa !! k); simpl; f_equal; lia.
  - intros l Hl. by apply list_lookup_insert_ne.
Qed.

(** * The task's step *)

Section step_properties.
Context {X L : Type}.
Context (model : X → list (list Z)).
Context (loss : list (list Z) → list Z → option L).

Lemma step_run (batch_x : X) (batch_y : list Z) (h : heap) p :
  __init__ (model batch_x) batch_y [1; 2] None = Ok p →
  step model loss batch_x batch_y h
  = match loss (model batch_x) batch_y with
    | Some _ =>
        (Ok (<["nhits" := S (length h)]> {["loss" := length h]}),
         h ++ [ValuePatch; Hits p])
    | None => (Ok (<["nhits" := length h]> ∅), h ++ [Hits p])
    end.
Proof.
  intros Hp. unfold step. cbv zeta.
  destruct (loss (model batch_x) batch_y) as [v|].
  - unfold mbind at 1. unfold M_bind at 1. unfold mbind at 1. unfold M_bind at 1.
    unfold alloc at 1. unfold mret at 1. unfold M_ret at 1.
    erewrite bind_ok by (by apply new_run).
    unfold mret, M_ret. rewrite length_app, <- app_assoc. simpl.
    by rewrite Nat.add_1_r.
  - unfold mbind at 1. unfold M_bind at 1. unfold mret at 1. unfold M_ret at 1.
    erewrite bind_ok by (by apply new_run). done.
Qed.

(** X10.  A step always succeeds.  Its result has an entry ['nhits'], an
    entry ['loss'] exactly when the loss function did not return [None], and
    no other entry; the entries refer to distinct objects the step has just
    created; the store is the earlier store followed by these objects, so
    no earlier object is changed. *)
Theorem step_results (batch_x : X) (batch_y : list Z) (h : heap) :
  ∃ (res : gmap string loc) (created : list pyobj),
    step model loss batch_x batch_y h = (Ok res, h ++ created)
    ∧ dom res
      = match loss (model batch_x) batch_y with
        | Some _ => {["loss"; "nhits"]}
        | None => {["nhits"]}
        end
    ∧ (∀ k l, res !! k = Some l →
         (length h ≤ l < length h + length created)%nat)
    ∧ (∀ k1 k2 l, res !! k1 = Some l → res !! k2 = Some l → k1 = k2).
Proof.
  destruct (init_spec (model batch_x) batch_y [1; 2] None) as (p & Hp & _).
  rewrite (step_run batch_x batch_y h p Hp).
  destruct (loss (model batch_x) batch_y) as [v|].
  - exists (<["nhits" := S (length h)]> {["loss" := length h]}),
      [ValuePatch; Hits p].
    split; [done |]. split; [|split].
    + rewrite dom_insert_L, dom_singleton_L. set_solver.
    + intros k l Hk. simpl.
      destruct (decide (k = "nhits")) as [->|Hne1].
      * rewrite lookup_insert_eq in Hk. injection Hk as <-. lia.
      * rewrite lookup_insert_ne in Hk by done.
        apply lookup_singleton_Some in Hk as [_ <-]. lia.
    + intros k1 k2 l H1 H2.
      destruct (decide (k1 = "nhits")) as [->|N1], (decide (k2 = "nhits")) as [->|N2];
        try done.
      * rewrite lookup_insert_eq in H1. rewrite lookup_insert_ne in H2 by done.
        apply lookup_singleton_Some in H2 as [_ <-]. injection H1 as H1. lia.
      * rewrite lookup_insert_eq in H2. rewrite lookup_insert_ne in H1 by done.
        apply lookup_singleton_Some in H1 as [_ <-]. injection H2 as H2. lia.
      * rewrite lookup_insert_ne in H1, H2 by done.
        apply lookup_singleton_Some in H1 as [<- _].
        by apply lookup_singleton_Some in H2 as [<- _].
  - exists (<["nhits" := length h]> ∅), [Hits p].
    split; [done |]. split; [|split].
    + rewrite dom_insert_L, dom_empty_L. set_solver.
    + intros k l Hk. simpl.
      apply lookup_insert_Some in Hk as [[_ <-]|[_ Hk]]; [lia | done].
    + intros k1 k2 l H1 H2.
      apply lookup_insert_Some in H1 as [[<- _]|[_ H1]]; [|done].
      by apply lookup_insert_Some in H2 as [[<- _]|[_ H2]].
Qed.

(** X11.  Reading the patch a step files under ['nhits'] gives exactly the
    two labels ['@1'] and ['@2'], each with a count between 0 and the number
    of targets of the batch, and the read leaves the store as the step left
    it. *)
Theorem step_nhits_value (batch_x : X) (batch_y : list Z) (h : heap) :
  ∃ (res : gmap string loc) (h' : heap) (l : loc) (c1 c2 : Z),
    step model loss batch_x batch_y h = (Ok res, h')
    ∧ res !! "nhits" = Some l
    ∧ forward l h' = (Ok (<["@1" := c1]> {["@2" := c2]}), h')
    ∧ 0 ≤ c1 ≤ Z.of_nat (length batch_y)
    ∧ 0 ≤ c2 ≤ Z.of_nat (length batch_y).
Proof.
  destruct (init_spec (model batch_x) batch_y [1; 2] None) as (p & Hp & _ & _ & Hl).
  set (ids := sort_ids (model batch_x)) in *.
  assert (hits_count p
          = <["@1" := hits_at ids batch_y 1]> {["@2" := hits_at ids batch_y 2]})
    as Hd.
  { assert (NoDup [1; 2]) as Hnd
      by (apply (bool_decide_unpack _); vm_compute; reflexivity).
    apply map_eq. intros k. rewrite Hl.
    destruct (decide (k = "@1")) as [->|N1].
    - rewrite lookup_insert_eq, decide_True by (left).
      f_equal. apply (added_NoDup ids batch_y [1; 2] 1 Hnd). left.
    - rewrite lookup_insert_ne by done.
      destruct (decide (k = "@2")) as [->|N2].
      + rewrite lookup_singleton_eq, decide_True by (right; left).
        f_equal. apply (added_NoDup ids batch_y [1; 2] 2 Hnd). right; left.
      + rewrite lookup_singleton_ne by done.
        apply decide_False. intros Hin.
        apply elem_of_cons in Hin as [->|Hin]; [done |].
        apply elem_of_cons in Hin as [->|Hin]; [done |].
        by apply elem_of_nil in Hin. }
  assert (0 ≤ hits_at ids batch_y 1 ≤ Z.of_nat (length batch_y)
          ∧ 0 ≤ hits_at ids batch_y 2 ≤ Z.of_nat (length batch_y)) as Hbounds.
  { split; (split; [apply hits_at_nonneg | apply hits_at_le_targets]). }
  rewrite (step_run batch_x batch_y h p Hp).
  destruct (loss (model batch_x) batch_y) as [v|].
  - exists (<["nhits" := S (length h)]> {["loss" := length h]}),
      (h ++ [ValuePatch; Hits p]), (S (length h)),
      (hits_at ids batch_y 1), (hits_at ids batch_y 2).
    split; [done |]. split; [apply lookup_insert_eq |]. split; [|done].
    rewrite (forward_run _ (S (length h)) (Hits p)).
    + simpl. by rewrite Hd.
    + change [ValuePatch; Hits p] with ([ValuePatch] ++ [Hits p]).
      rewrite app_assoc.
      replace (S (length h)) with (length (h ++ [ValuePatch]))
        by (rewrite length_app; simpl; lia).
      apply lookup_allocated.
  - exists (<["nhits" := length h]> ∅), (h ++ [Hits p]), (length h),
      (hits_at ids batch_y 1), (hits_at ids batch_y 2).
    split; [done |]. split; [apply lookup_insert_eq |]. split; [|done].
    rewrite (forward_run _ (length h) (Hits p)) by apply lookup_allocated.
    simpl. by rewrite Hd.
Qed.

End step_properties.

(** * Negative cutoffs *)



(** * The further properties at sample inputs *)

(** The cutoff 1 listed twice, on one sample. *)
Lemma init_listed_cutoff_scales_witness :
  ∃ p q c, __init__ [[2; 1]] [0] [1; 1; 2] None = Ok p
         ∧ __init__ [[2; 1]] [0] [1] None = Ok q
         ∧ hits_count q !! key 1 = Some c
         ∧ hits_count p !! key 1
           = Some (Z.of_nat (length (filter (λ m, m = 1) [1; 1; 2])) * c).
Proof.
  assert (__init__ [[2; 1]] [0] [1; 1; 2] None
          = Ok (mkHitsCountPatch None [1; 1; 2] {[ "@1" := 2; "@2" := 1 ]})) as Hp
    by (vm_compute; reflexivity).
  assert (__init__ [[2; 1]] [0] [1] None
          = Ok (mkHitsCountPatch None [1] {[ "@1" := 1 ]})) as Hq
    by (vm_compute; reflexivity).
  destruct (init_listed_cutoff_scales [[2; 1]] [0] [1; 1; 2] None None _ _ 1 Hp Hq)
    as (c & Hc & Hpc); [left |].
  eexists _, _, c. split; [exact Hp |]. split; [exact Hq |].
  split; [exact Hc | exact Hpc].
Defined.

(** The two-sample batch with the default cutoffs. *)
Lemma init_counts_bounded_witness :
  ∃ p, __init__ pair_preds pair_targets [1; 2] None = Ok p
     ∧ map_Forall (λ _ c, 0 ≤ c ≤ Z.of_nat (length pair_targets)) (hits_count p).
Proof.
  eexists. split; [vm_compute; reflexivity |].
  apply (init_counts_bounded pair_preds pair_targets [1; 2] None);
    [vm_compute; reflexivity |].
  apply (bool_decide_unpack _). vm_compute. reflexivity.
Defined.

(** Two targets and no prediction rows. *)
Lemma init_counts_nothing_witness :
  ∃ p, __init__ [] [0; 1] [1; 2] None = Ok p ∧ hits_count p !! key 1 = Some 0.
Proof.
  eexists. split; [vm_compute; reflexivity |].
  apply (init_counts_nothing [] [0; 1] [1; 2] None);
    [vm_compute; reflexivity | left | by left].
Defined.

(** The four-sample batch over three classes, with the cutoff 3. *)
Lemma init_count_all_classes_witness :
  ∃ p, __init__ ranked_preds ranked_targets [1; 2; 3] None = Ok p
     ∧ hits_count p !! key 3
       = Some (Z.of_nat (length (filter (λ t, 0 ≤ t < Z.of_nat 3) ranked_targets))).
Proof.
  eexists. split; [vm_compute; reflexivity |].
  apply (init_count_all_classes ranked_preds ranked_targets [1; 2; 3] None _ 3 3%nat).
  - vm_compute; reflexivity.
  - apply (bool_decide_unpack _). vm_compute. reflexivity.
  - do 2 right. left.
  - discriminate.
  - repeat constructor.
  - simpl. lia.
Defined.

(** The two rows exchanged while the targets stay, and the reverse. *)
Lemma init_ignores_pairing_witness :
  __init__ [[2; 1]; [1; 2]] [1; 0] [1; 2] None
  = __init__ [[1; 2]; [2; 1]] [1; 0] [1; 2] None
  ∧ __init__ [[2; 1]; [1; 2]] [1; 0] [1; 2] None
    = __init__ [[2; 1]; [1; 2]] [0; 1] [1; 2] None.
Proof.
  split.
  - apply (init_ignores_pairing [[2; 1]; [1; 2]] [[1; 2]; [2; 1]] [1; 0] [1; 0]);
      [apply Permutation_swap | reflexivity].
  - apply (init_ignores_pairing [[2; 1]; [1; 2]] [[2; 1]; [1; 2]] [1; 0] [0; 1]);
      [reflexivity | apply Permutation_swap].
Defined.

(** The four-sample batch with the cutoff 1. *)
Lemma init_never_undercounts_witness :
  ∃ p c, __init__ ranked_preds ranked_targets [1; 2] None = Ok p
       ∧ hits_count p !! key 1 = Some c
       ∧ spec_hits_at ranked_preds ranked_targets 1 ≤ c.
Proof.
  assert (__init__ ranked_preds ranked_targets [1; 2] None
          = Ok (mkHitsCountPatch None [1; 2] {[ "@1" := 3; "@2" := 4 ]})) as Hp
    by (vm_compute; reflexivity).
  destruct (init_never_undercounts ranked_preds ranked_targets [1; 2] None _ 1 Hp)
    as (c & Hc & Hle); [left |].
  exists (mkHitsCountPatch None [1; 2] {[ "@1" := 3; "@2" := 4 ]}), c.
  split; [exact Hp |]. split; [exact Hc | exact Hle].
Defined.

(** One sample whose label is the first sorted id. *)
Lemma init_single_sample_witness :
  ∃ p, __init__ [[1; 3; 2]] [1] [1; 2] None = Ok p
     ∧ hits_count p !! key 1
       = Some (if bool_decide (1 ∈ slice_to 1 (argsort_desc [1; 3; 2])) then 1 else 0).
Proof.
  eexists. split; [vm_compute; reflexivity |].
  apply (init_single_sample [1; 3; 2] 1 [1; 2] None).
  - vm_compute; reflexivity.
  - apply (bool_decide_unpack _). vm_compute. reflexivity.
  - left.
Defined.

(** The first sample patch merged with itself. *)
Lemma add_self_doubles_witness :
  three_patches !! 0%nat = Some (Hits patch_a)
  ∧ ∃ h' d, add 0 0 three_patches = (Ok 0%nat, h')
      ∧ h' !! 0%nat = Some (Hits (set_hits_count d patch_a))
      ∧ d !! "@1" = Some 4 ∧ d !! "@2" = Some 6.
Proof.
  split; [reflexivity |].
  destruct (add_self_doubles three_patches 0 patch_a eq_refl)
    as (h' & d & Hrun & Ha & Hd & _).
  exists h', d. split; [exact Hrun |]. split; [exact Ha |].
  split; rewrite Hd; reflexivity.
Defined.

